(** * Maxi gallery server: a shallow embedding of [server.js]

    The server is three Express route handlers over two remote services:
    a document store reached through a Mongoose model ([Project]) and an
    image store reached through the Cloudinary uploader.  The embedding
    keeps the handlers as they are written.  A handler is a computation
    that stops at each [await]: the awaited call is one step on a
    [World] that holds the collection, the remote images and the log of
    calls made to the two clients, and everything the outside decides
    for one request (the clock, the generated identifier, whether a
    remote call rejects and with what) is read from an [Env].  A request
    served alone runs its computation to the end; requests served
    together take their steps in turn.  Of the middleware in front of
    the routes, the requests it answers itself are kept as request
    kinds of their own. *)

From Stdlib Require Import Ascii.
From stdpp Require Import base option numbers strings list gmap sorting pretty.

Local Open Scope Z_scope.

(** ** JavaScript values *)

(** A value that may be [undefined] is an [option]; a string is truthy
    when it is defined and not empty. *)
Definition truthy (v : option string) : bool :=
  match v with
  | Some (String _ _) => true
  | Some EmptyString => false
  | None => false
  end.

Definition dquote : string := String (ascii_of_nat 34) EmptyString.
Definition quoted (s : string) : string := dquote +:+ s +:+ dquote.

(** ** Data model *)

(** A 96-bit ObjectId, as a number. *)
Abbreviation ObjectId := N.

(** A document of the [Project] model.  [projectSchema] declares the four
    string paths and [createdAt]; a path that was never set is
    [undefined].  Dates are milliseconds since the epoch. *)
Record Project := {
  _id : ObjectId;
  title : option string;
  category : option string;
  imageUrl : option string;
  publicId : option string;
  createdAt : Z
}.

(** [required: true] per path of [projectSchema]. *)
Record Schema := {
  title_required : bool;
  category_required : bool;
  imageUrl_required : bool;
  publicId_required : bool
}.

Definition projectSchema : Schema :=
  {| title_required := true;
     category_required := true;
     imageUrl_required := true;
     publicId_required := false |}.

(** An uploaded image, as far as the provider looks at it: its detected
    format and its pixel dimensions. *)
Record Image := {
  format : string;
  img_width : Z;
  img_height : Z
}.

(** One entry of the [transformation] array; a key that is not written in
    the object is [None]. *)
Record Transformation := {
  width : option Z;
  height : option Z;
  crop : string
}.

(** The [params] of [new CloudinaryStorage({ ... })]. *)
Record StorageParams := {
  folder : string;
  allowed_formats : list string;
  transformation : list Transformation
}.

Definition storage : StorageParams :=
  {| folder := "lented-gallery";
     allowed_formats := ["jpg"; "png"; "jpeg"; "webp"];
     transformation := [ {| width := Some 1000; height := None; crop := "limit" |} ] |}.

(** Calls made to the two clients, in the order they are issued. *)
Inductive Call :=
| ProjectFind
| ProjectSave (doc : Project)
| ProjectFindById (id : string)
| ProjectFindByIdAndDelete (id : string)
| UploaderUpload (into : string) (img : Image)
| UploaderDestroy (public_id : string).

(** The state outside the process: the [projects] collection keyed by
    [_id], the images held by the provider keyed by public id, and the
    call log. *)
Record World := {
  projects : gmap N Project;
  assets : gmap string Image;
  calls : list Call
}.

Definition empty_world : World :=
  {| projects := ∅; assets := ∅; calls := [] |}.

(** What the outside decides while one request is handled.  A store
    call that fails rejects with an [Error], which has a message.  A
    provider call that fails rejects with whatever the SDK hands over:
    [Some (Some m)] when that value has a [message], [Some None] when it
    has none. *)
Record Env := {
  now : Z;
  fresh_id : ObjectId;
  asset_name : string;
  find_fails : option string;
  findById_fails : option string;
  findByIdAndDelete_fails : option string;
  save_fails : option string;
  upload_fails : option (option string);
  destroy_fails : option (option string)
}.

(** ** Awaited computations *)

(** A promise settles with a value or with a thrown one, of which the
    handlers read [message] only; [None] is a thrown value without it. *)
Inductive Outcome (A : Type) :=
| Resolved (a : A)
| Rejected (message : option string).
Arguments Resolved {A} a.
Arguments Rejected {A} message.

(** An asynchronous computation is settled, or waits on one call to the
    outside and goes on with its outcome.  The call itself is one step
    on the world; between two calls of one computation the calls of
    others may take place. *)
Inductive Async (A : Type) : Type :=
| Settled (o : Outcome A)
| Await {X : Type} (outside : World → Outcome X * World) (k : Outcome X → Async A).
Arguments Settled {A} o.
Arguments Await {A X} outside k.

(** The computation run to its end with nothing else in between. *)
Fixpoint run {A} (c : Async A) (w : World) : Outcome A * World :=
  match c with
  | Settled o => (o, w)
  | Await outside k => let (o, w') := outside w in run (k o) w'
  end.

Coercion run : Async >-> Funclass.

Definition ret {A} (a : A) : Async A := Settled (Resolved a).

Definition throw {A} (message : string) : Async A := Settled (Rejected (Some message)).

Definition await {X} (outside : World → Outcome X * World) : Async X :=
  Await outside Settled.

Fixpoint bind {A B} (c : Async A) (k : A → Async B) : Async B :=
  match c with
  | Settled (Resolved a) => k a
  | Settled (Rejected e) => Settled (Rejected e)
  | Await outside k' => Await outside (fun o => bind (k' o) k)
  end.

Fixpoint try_catch {A} (c : Async A) (handler : option string → Async A) : Async A :=
  match c with
  | Settled (Resolved a) => Settled (Resolved a)
  | Settled (Rejected e) => handler e
  | Await outside k' => Await outside (fun o => try_catch (k' o) handler)
  end.

Notation "x <- c ;; k" := (bind c (fun x => k))
  (at level 100, c at next level, right associativity).
Notation "c ;;; k" := (bind c (fun _ => k))
  (at level 100, right associativity).

Definition record_call (c : Call) (w : World) : World :=
  {| projects := projects w; assets := assets w; calls := calls w ++ [c] |}.

(** One step of a computation: its pending call completes. *)
Definition advance {A} (c : Async A) (w : World) : Async A * World :=
  match c with
  | Settled o => (Settled o, w)
  | Await outside k => let (o, w') := outside w in (k o, w')
  end.

(** Two computations in flight at once: the schedule names, step by
    step, whose pending call completes next ([true] for the first). *)
Fixpoint interleave {A B} (schedule : list bool) (c1 : Async A) (c2 : Async B)
    (w : World) : Async A * Async B * World :=
  match schedule with
  | [] => (c1, c2, w)
  | true :: rest => let (c1', w') := advance c1 w in interleave rest c1' c2 w'
  | false :: rest => let (c2', w') := advance c2 w in interleave rest c1 c2' w'
  end.

(** ** HTTP responses *)

(** [JsonError e] is [{ error: e }]; with [e] undefined the key is dropped
    and the body is the empty object. *)
Inductive Body :=
| JsonError (error : option string)
| JsonMessage (message : string)
| JsonProject (p : Project)
| JsonProjects (ps : list Project)
| HtmlError (message : option string)
| FileContent (name : string)
| NoContent.

Record Response := {
  status : Z;
  body : Body
}.

(** [res.json(b)] with the default status, and [res.status(s).json(b)]. *)
Definition res_json (b : Body) : Response := {| status := 200; body := b |}.
Definition res_status_json (s : Z) (b : Body) : Response := {| status := s; body := b |}.

(** ** Record store client: the [Project] model *)

(** [sort({ createdAt: -1 })]: [p] may stand before [q] when it is not
    older. *)
Definition newest_first (p q : Project) : Prop := createdAt q ≤ createdAt p.

Global Instance newest_first_dec p q : Decision (newest_first p q).
Proof. unfold newest_first. apply _. Defined.

Definition documents (w : World) : list Project := snd <$> map_to_list (projects w).

(** [Project.find().sort({ createdAt: -1 })]. *)
Definition Project_find_sorted (env : Env) : Async (list Project) :=
  await (fun w =>
    let w' := record_call ProjectFind w in
    match find_fails env with
    | Some m => (Rejected (Some m), w')
    | None => (Resolved (merge_sort newest_first (documents w)), w')
    end).

(** The required-path validators that run inside [save()]: a required
    string path fails when it is undefined or empty. *)
Definition missing (required : bool) (path : string) (v : option string) : list string :=
  if required && negb (truthy v) then [path] else [].

Definition missing_paths (s : Schema) (doc : Project) : list string :=
  missing (title_required s) "title" (title doc) ++
  missing (category_required s) "category" (category doc) ++
  missing (imageUrl_required s) "imageUrl" (imageUrl doc) ++
  missing (publicId_required s) "publicId" (publicId doc).

Definition required_message (path : string) : string :=
  path +:+ ": Path `" +:+ path +:+ "` is required.".

Definition validation_message (paths : list string) : string :=
  "Project validation failed: " +:+ String.concat ", " (required_message <$> paths).

Definition duplicate_key_message : string :=
  "E11000 duplicate key error collection: projects index: _id_".

Definition insert_document (doc : Project) (w : World) : Outcome Project * World :=
  match projects w !! _id doc with
  | Some _ => (Rejected (Some duplicate_key_message), w)
  | None =>
      (Resolved doc,
       {| projects := <[_id doc := doc]> (projects w);
          assets := assets w;
          calls := calls w |})
  end.

(** [newProject.save()] for a document that was just constructed: the
    validators run first, then the insert is sent. *)
Definition Project_save (env : Env) (doc : Project) : Async Project :=
  await (fun w =>
    let w' := record_call (ProjectSave doc) w in
    match missing_paths projectSchema doc with
    | [] =>
        match save_fails env with
        | Some m => (Rejected (Some m), w')
        | None => insert_document doc w'
        end
    | paths => (Rejected (Some (validation_message paths)), w')
    end).

(** ** Remote asset store client *)

(** Nearest whole number to [a / b], for [0 < b]. *)
Definition round_div (a b : Z) : Z := (2 * a + b) / (2 * b).

Definition scale_to_width (W : Z) (img : Image) : Image :=
  {| format := format img;
     img_width := W;
     img_height := Z.max 1 (round_div (img_height img * W) (img_width img)) |}.

Definition scale_to_height (H : Z) (img : Image) : Image :=
  {| format := format img;
     img_width := Z.max 1 (round_div (img_width img * H) (img_height img));
     img_height := H |}.

(** The provider's [limit] mode: an image that exceeds the box given by
    the keys that are present is scaled down into it, with its
    proportions kept; an image that fits is left as it is.  A key that is
    absent puts no bound on that side. *)
Definition crop_limit (t : Transformation) (img : Image) : Image :=
  match width t, height t with
  | Some W, None =>
      if img_width img <=? W then img else scale_to_width W img
  | None, Some H =>
      if img_height img <=? H then img else scale_to_height H img
  | Some W, Some H =>
      if (img_width img <=? W) && (img_height img <=? H) then img
      else if img_width img * H <=? img_height img * W
           then scale_to_height H img
           else scale_to_width W img
  | None, None => img
  end.

(** Only the mode this server configures is modelled. *)
Definition apply_transformation (t : Transformation) (img : Image) : option Image :=
  if String.eqb (crop t) "limit" then Some (crop_limit t img) else None.

Fixpoint apply_transformations (ts : list Transformation) (img : Image) : option Image :=
  match ts with
  | [] => Some img
  | t :: ts' =>
      match apply_transformation t img with
      | Some img' => apply_transformations ts' img'
      | None => None
      end
  end.

Definition format_allowed (params : StorageParams) (img : Image) : bool :=
  bool_decide (format img ∈ allowed_formats params).

(** What the handlers read of the provider's answer to an upload. *)
Record UploadApiResponse := {
  public_id : string;
  secure_url : string
}.

Record MulterFile := {
  path : string;
  filename : string
}.

(** The multipart form as sent, with at most one file part, in the field
    [image]; and the request as the handler sees it once
    [upload.single('image')] has run. *)
Record MultipartForm := {
  form_title : option string;
  form_category : option string;
  form_image : option Image
}.

(** One more file part of a multipart body. *)
Record FilePart := {
  fieldname : string;
  content : Image
}.

Record Request := {
  body_title : option string;
  body_category : option string;
  file : option MulterFile
}.

(** What a request amounts to for this server.  The three routes come
    after the CORS, JSON body and static file middleware, so a request
    reaches a route only when none of these has answered it: a preflight
    is answered by the CORS middleware, a JSON body the parser refuses
    ends in the framework's error handler with the parser's status, a
    [GET] of a file under [public] is served from there, and a request
    that matches no route gets the framework's 404. *)
Inductive HttpRequest :=
| GET_api_projects
| POST_api_upload (form : MultipartForm)
| DELETE_api_projects (id : string)
| POST_api_upload_more (form : MultipartForm) (extra : FilePart)
| OPTIONS_preflight
| JSON_body_refused (parser_status : Z) (message : option string)
| GET_static (name : string)
| Unrouted (method : string) (url : string).

Section Server.

(** The driver's cast of a route parameter to an ObjectId; which strings
    it accepts is the driver's business. *)
Variable castObjectId : string → option ObjectId.

(** The account name handed to [cloudinary.config]. *)
Variable cloud_name : string.

Definition cast_error (value : string) : string :=
  "Cast to ObjectId failed for value " +:+ quoted value +:+
  " (type string) at path " +:+ quoted "_id" +:+ " for model " +:+ quoted "Project".

(** [Project.findById(id)]. *)
Definition Project_findById (env : Env) (id : string) : Async (option Project) :=
  await (fun w =>
    let w' := record_call (ProjectFindById id) w in
    match castObjectId id with
    | None => (Rejected (Some (cast_error id)), w')
    | Some oid =>
        match findById_fails env with
        | Some m => (Rejected (Some m), w')
        | None => (Resolved (projects w !! oid), w')
        end
    end).

(** [Project.findByIdAndDelete(id)]. *)
Definition Project_findByIdAndDelete (env : Env) (id : string) : Async (option Project) :=
  await (fun w =>
    let w' := record_call (ProjectFindByIdAndDelete id) w in
    match castObjectId id with
    | None => (Rejected (Some (cast_error id)), w')
    | Some oid =>
        match findByIdAndDelete_fails env with
        | Some m => (Rejected (Some m), w')
        | None =>
            (Resolved (projects w !! oid),
             {| projects := delete oid (projects w);
                assets := assets w;
                calls := calls w' |})
        end
    end).

Definition delivery_url (id fmt : string) : string :=
  "https://res.cloudinary.com/" +:+ cloud_name +:+ "/image/upload/" +:+ id +:+ "." +:+ fmt.

(** The upload the storage engine issues with its [params]. *)
Definition uploader_upload (env : Env) (params : StorageParams) (img : Image)
  : Async UploadApiResponse :=
  await (fun w =>
    let w' := record_call (UploaderUpload (folder params) img) w in
    match upload_fails env with
    | Some e => (Rejected e, w')
    | None =>
        if format_allowed params img then
          match apply_transformations (transformation params) img with
          | Some stored =>
              let id := folder params +:+ "/" +:+ asset_name env in
              (Resolved {| public_id := id; secure_url := delivery_url id (format img) |},
               {| projects := projects w;
                  assets := <[id := stored]> (assets w);
                  calls := calls w' |})
          | None => (Rejected (Some "Invalid transformation"), w')
          end
        else (Rejected (Some ("Image file format " +:+ format img +:+ " not allowed")), w')
    end).

(** [cloudinary.uploader.destroy(publicId)]. *)
Definition uploader_destroy (env : Env) (id : string) : Async unit :=
  await (fun w =>
    let w' := record_call (UploaderDestroy id) w in
    match destroy_fails env with
    | Some e => (Rejected e, w')
    | None =>
        (Resolved tt,
         {| projects := projects w;
            assets := delete id (assets w);
            calls := calls w' |})
    end).

(** [upload.single('image')] over [storage], for a form with at most one
    file part: a form without the file field passes through with
    [req.file] undefined. *)
Definition upload_single (env : Env) (form : MultipartForm) : Async Request :=
  match form_image form with
  | None =>
      ret {| body_title := form_title form;
             body_category := form_category form;
             file := None |}
  | Some img =>
      r <- uploader_upload env storage img ;;
      ret {| body_title := form_title form;
             body_category := form_category form;
             file := Some {| path := secure_url r; filename := public_id r |} |}
  end.

(** The storage engine's [_removeFile], which the middleware calls for a
    file it had stored when it gives the request up; what becomes of the
    removal does not change the error the request ends with. *)
Definition removeFile (env : Env) (f : MulterFile) : Async unit :=
  try_catch (uploader_destroy env (filename f)) (fun _ => ret tt).

(** The same middleware on a form that carries one more file part.  With
    no file yet, a part in the field [image] is the file.  Any other
    part is refused: the middleware lets the upload in flight finish,
    removes the file if it was stored, and ends the request with its
    error for an unexpected field.  Parts after a refused one are not
    looked at, so one more part is all it takes. *)
Definition upload_single_more (env : Env) (form : MultipartForm) (extra : FilePart)
  : Async Request :=
  match form_image form with
  | None =>
      if String.eqb (fieldname extra) "image" then
        upload_single env
          {| form_title := form_title form;
             form_category := form_category form;
             form_image := Some (content extra) |}
      else throw "Unexpected field"
  | Some img =>
      try_catch
        (r <- uploader_upload env storage img ;;
         removeFile env {| path := secure_url r; filename := public_id r |})
        (fun _ => ret tt) ;;;
      throw "Unexpected field"
  end.

(** ** Route handlers *)

(** [new Project({ title, category, imageUrl, publicId })]: the
    constructor assigns [_id] and the [createdAt] default. *)
Definition new_Project (env : Env) (t c url pid : option string) : Project :=
  {| _id := fresh_id env;
     title := t;
     category := c;
     imageUrl := url;
     publicId := pid;
     createdAt := now env |}.

(** [app.get('/api/projects', ...)] *)
Definition get_projects (env : Env) : Async Response :=
  try_catch
    (found <- Project_find_sorted env ;;
     ret (res_json (JsonProjects found)))
    (fun message => ret (res_status_json 500 (JsonError message))).

(** [app.post('/api/upload', upload.single('image'), ...)], the handler. *)
Definition post_upload (env : Env) (req : Request) : Async Response :=
  match file req with
  | None => ret (res_status_json 400 (JsonError (Some "No image file uploaded")))
  | Some f =>
      try_catch
        (let newProject :=
           new_Project env (body_title req) (body_category req)
                       (Some (path f)) (Some (filename f)) in
         savedProject <- Project_save env newProject ;;
         ret (res_status_json 201 (JsonProject savedProject)))
        (fun message => ret (res_status_json 500 (JsonError message)))
  end.

(** [app.delete('/api/projects/:id', ...)] *)
Definition delete_project (env : Env) (id : string) : Async Response :=
  try_catch
    (project <- Project_findById env id ;;
     match project with
     | None => ret (res_status_json 404 (JsonError (Some "Project not found")))
     | Some p =>
         (match publicId p with
          | Some pid => if truthy (publicId p) then uploader_destroy env pid else ret tt
          | None => ret tt
          end) ;;;
         Project_findByIdAndDelete env id ;;;
         ret (res_json (JsonMessage "Project deleted successfully"))
     end)
    (fun message => ret (res_status_json 500 (JsonError message))).

(** What the server does with a request, as a computation: the
    middleware in front of a route, then its handler. *)
Definition route (env : Env) (r : HttpRequest) : Async Response :=
  match r with
  | GET_api_projects => get_projects env
  | POST_api_upload form =>
      req <- upload_single env form ;; post_upload env req
  | DELETE_api_projects id => delete_project env id
  | POST_api_upload_more form extra =>
      req <- upload_single_more env form extra ;; post_upload env req
  | OPTIONS_preflight => ret {| status := 204; body := NoContent |}
  | JSON_body_refused parser_status message =>
      ret {| status := parser_status; body := HtmlError message |}
  | GET_static name => ret {| status := 200; body := FileContent name |}
  | Unrouted method url =>
      ret {| status := 404; body := HtmlError (Some ("Cannot " +:+ method +:+ " " +:+ url)) |}
  end.

(** An error passed to [next] by a middleware ends in the framework's
    default error handler. *)
Definition respond (h : Async Response) : World → Response * World :=
  fun w =>
    match h w with
    | (Resolved r, w') => (r, w')
    | (Rejected m, w') => ({| status := 500; body := HtmlError m |}, w')
    end.

(** One request served from start to end with no call of another request
    in between. *)
Definition app (env : Env) (r : HttpRequest) : World → Response * World :=
  respond (route env r).

(** Two requests served at once, their calls interleaved as the schedule
    says; when the schedule is used up the first is finished, then the
    second. *)
Definition concurrently (env1 : Env) (r1 : HttpRequest) (env2 : Env) (r2 : HttpRequest)
    (schedule : list bool) (w : World) : Response * Response * World :=
  let '(c1, c2, w') := interleave schedule (route env1 r1) (route env2 r2) w in
  let (res1, w1) := respond c1 w' in
  let (res2, w2) := respond c2 w1 in
  (res1, res2, w2).

(** Worlds the server can drive the outside into, starting from [w0]. *)
Inductive reachable (w0 : World) : World → Prop :=
| reachable_start : reachable w0 w0
| reachable_request env r w :
    reachable w0 w → reachable w0 (app env r w).2.

End Server.

(** ** Start-up

    The repository holds the entry point twice.  [src/server.js] carries
    its connection string and provider credentials as literals; the other
    copy reads them from [process.env] and checks [MONGO_URI] first.  The
    routes are the same in both. *)

Record ProcessEnv := {
  MONGO_URI : option string;
  CLOUDINARY_CLOUD_NAME : option string;
  CLOUDINARY_API_KEY : option string;
  CLOUDINARY_API_SECRET : option string;
  PORT : option string
}.

Record CloudinaryConfig := {
  config_cloud_name : option string;
  config_api_key : option string;
  config_api_secret : option string
}.

(** [process.env.PORT || 3000] is a string from the environment or the
    number 3000. *)
Inductive Port :=
| PortString (s : string)
| PortNumber (n : Z).

Definition listen_port (env : ProcessEnv) : Port :=
  match PORT env with
  | Some s => if truthy (PORT env) then PortString s else PortNumber 3000
  | None => PortNumber 3000
  end.

(** [${PORT}] in a template string. *)
Definition port_text (p : Port) : string :=
  match p with
  | PortString s => s
  | PortNumber n => pretty n
  end.

(** An argument of a console call: a string, or an error object, which
    the console prints in its own way. *)
Inductive LogArg :=
| Text (s : string)
| ErrorObject (message : string).

(** What the process does while it starts, in order.  An exception that
    nothing catches ends the process. *)
Inductive Effect :=
| console_error (args : list LogArg)
| console_log (args : list LogArg)
| process_exit (code : Z)
| mongoose_connect (uri : string)
| cloudinary_config (cfg : CloudinaryConfig)
| app_listen (port : Port)
| uncaught_exception (message : string).

(** [mongoose.connect(...).then(...).catch(...)]: the outcome of the
    connection attempt is logged, whichever it is. *)
Definition connect_report (connected failed : string) (connect_error : option string) : Effect :=
  match connect_error with
  | None => console_log [Text connected]
  | Some err => console_error [Text failed; ErrorObject err]
  end.

(** [app.listen(PORT, () => console.log(...))] and what follows it.  What
    the runtime makes of the port is the runtime's: when it refuses it
    (a port out of range, a port in use) the exception is not caught and
    the process ends there; otherwise the callback logs its line and the
    connection attempt is reported when it settles. *)
Definition listen_and_report (running connected failed : string) (port : Port)
    (listen_error connect_error : option string) : list Effect :=
  app_listen port ::
  match listen_error with
  | Some err => [uncaught_exception err]
  | None =>
      [console_log [Text (running +:+ port_text port)];
       connect_report connected failed connect_error]
  end.

Definition is_exit (e : Effect) : bool :=
  match e with process_exit _ => true | _ => false end.

Definition is_uncaught (e : Effect) : bool :=
  match e with uncaught_exception _ => true | _ => false end.

Definition is_listen (e : Effect) : bool :=
  match e with app_listen _ => true | _ => false end.

(** The run calls [process.exit]; the run is ended by an exception; the
    run ends one way or the other; the run gets to serve requests, which
    it does once [app.listen] has returned. *)
Definition exits (run : list Effect) : bool := existsb is_exit run.
Definition crashes (run : list Effect) : bool := existsb is_uncaught run.
Definition halts (run : list Effect) : bool := exits run || crashes run.
Definition serves (run : list Effect) : bool := existsb is_listen run && negb (halts run).

(** The entry point that reads its configuration from the environment. *)
Module EnvServer.

Definition fatal_message : string := "âŒ FATAL ERROR: MONGO_URI is not defined.".

Definition start (env : ProcessEnv) (listen_error connect_error : option string)
  : list Effect :=
  let port := listen_port env in
  let mongoURI := MONGO_URI env in
  match mongoURI with
  | Some uri =>
      if negb (truthy mongoURI) then
        [console_error [Text fatal_message]; process_exit 1]
      else
        mongoose_connect uri ::
        cloudinary_config
          {| config_cloud_name := CLOUDINARY_CLOUD_NAME env;
             config_api_key := CLOUDINARY_API_KEY env;
             config_api_secret := CLOUDINARY_API_SECRET env |} ::
        listen_and_report "ğŸš€ Server running on port "
          "âœ… MongoDB Connected" "âŒ MongoDB Error:"
          port listen_error connect_error
  | None => [console_error [Text fatal_message]; process_exit 1]
  end.

End EnvServer.

(** [src/server.js].  Its literals are kept abstract: nothing below
    depends on their text. *)
Module ServerJs.

Section Literals.

Variable mongoURI : string.
Variable credentials : CloudinaryConfig.

Definition start (env : ProcessEnv) (listen_error connect_error : option string)
  : list Effect :=
  let port := listen_port env in
  mongoose_connect mongoURI ::
  cloudinary_config credentials ::
  listen_and_report "🚀 Server running on port "
    "✅ MongoDB Connected" "❌ MongoDB Error:"
    port listen_error connect_error.

End Literals.

End ServerJs.

(** ** A concrete cast

    One cast a driver implements: exactly 24 hexadecimal digits. *)

Definition hex_digit (c : ascii) : option N :=
  let n := N_of_ascii c in
  if ((48 <=? n) && (n <=? 57))%N then Some (n - 48)%N
  else if ((97 <=? n) && (n <=? 102))%N then Some (n - 87)%N
  else if ((65 <=? n) && (n <=? 70))%N then Some (n - 55)%N
  else None.

Fixpoint parse_hex (s : string) (acc : N) : option N :=
  match s with
  | EmptyString => Some acc
  | String c s' =>
      match hex_digit c with
      | Some d => parse_hex s' (16 * acc + d)%N
      | None => None
      end
  end.

Definition objectid_of_hex (s : string) : option ObjectId :=
  if Nat.eqb (String.length s) 24 then parse_hex s 0%N else None.

(** ** Vocabulary of the statements *)

(** A record has a public id when the handler's test [if (project.publicId)]
    passes. *)
Definition has_publicId (p : Project) : Prop := truthy (publicId p) = true.

(** Title, category and image URL are present and not empty. *)
Definition complete (p : Project) : Prop :=
  truthy (title p) = true ∧ truthy (category p) = true ∧ truthy (imageUrl p) = true.

Definition store_complete (w : World) : Prop :=
  ∀ k p, projects w !! k = Some p → complete p.

Definition older (p q : Project) : Prop := createdAt q < createdAt p.

(** Newest first, with and without ties. *)
Definition descending (l : list Project) : Prop := StronglySorted newest_first l.
Definition strictly_descending (l : list Project) : Prop := StronglySorted older l.

Definition longest_side (img : Image) : Z := Z.max (img_width img) (img_height img).

(** How a delete request ends once it has reached the metadata delete. *)
Definition metadata_delete_outcome
    (env : Env) (oid : ObjectId) (w : World) (res : Response) (w' : World) : Prop :=
  match findByIdAndDelete_fails env with
  | None =>
      res = {| status := 200; body := JsonMessage "Project deleted successfully" |} ∧
      projects w' = delete oid (projects w)
  | Some m =>
      res = {| status := 500; body := JsonError (Some m) |} ∧
      projects w' = projects w
  end.

(** ** Concrete scenarios, for the examples below *)

Definition quiet (t : Z) (id : ObjectId) (name : string) : Env :=
  {| now := t; fresh_id := id; asset_name := name;
     find_fails := None; findById_fails := None; findByIdAndDelete_fails := None;
     save_fails := None; upload_fails := None; destroy_fails := None |}.

(** The same, with the remote delete, or the metadata delete, rejecting. *)
Definition destroy_times_out : Env :=
  {| now := 1700000000001; fresh_id := 3; asset_name := "next";
     find_fails := None; findById_fails := None; findByIdAndDelete_fails := None;
     save_fails := None; upload_fails := None;
     destroy_fails := Some (Some "Request Timeout") |}.

(** The remote delete rejecting with a value that has no [message]. *)
Definition destroy_refused : Env :=
  {| now := 1700000000001; fresh_id := 3; asset_name := "next";
     find_fails := None; findById_fails := None; findByIdAndDelete_fails := None;
     save_fails := None; upload_fails := None; destroy_fails := Some None |}.

Definition store_goes_away : Env :=
  {| now := 1700000000001; fresh_id := 3; asset_name := "next";
     find_fails := None; findById_fails := None;
     findByIdAndDelete_fails := Some "connection closed";
     save_fails := None; upload_fails := None; destroy_fails := None |}.

Definition untitled_form : MultipartForm :=
  {| form_title := None;
     form_category := Some "Landscape";
     form_image := Some {| format := "jpg"; img_width := 800; img_height := 600 |} |}.

Definition gif_form : MultipartForm :=
  {| form_title := Some "Loop";
     form_category := Some "Motion";
     form_image := Some {| format := "gif"; img_width := 800; img_height := 600 |} |}.

Definition sunset_form : MultipartForm :=
  {| form_title := Some "Sunset";
     form_category := Some "Landscape";
     form_image := Some {| format := "jpg"; img_width := 3000; img_height := 2000 |} |}.

Definition tower_form : MultipartForm :=
  {| form_title := Some "Tower";
     form_category := Some "City";
     form_image := Some {| format := "png"; img_width := 2000; img_height := 6000 |} |}.

Definition no_file_form : MultipartForm :=
  {| form_title := Some "Sunset"; form_category := Some "Landscape"; form_image := None |}.

Definition demo_app : Env → HttpRequest → World → Response * World :=
  app objectid_of_hex "demo".

Definition sunset_project : Project :=
  {| _id := 1; title := Some "Sunset"; category := Some "Landscape";
     imageUrl := Some "https://res.cloudinary.com/demo/image/upload/lented-gallery/sunset.jpg";
     publicId := Some "lented-gallery/sunset";
     createdAt := 1700000000000 |}.

Definition tower_project : Project :=
  {| _id := 2; title := Some "Tower"; category := Some "City";
     imageUrl := Some "https://res.cloudinary.com/demo/image/upload/lented-gallery/tower.png";
     publicId := Some "lented-gallery/tower";
     createdAt := 1700000000000 |}.




Definition placeholder_credentials : CloudinaryConfig :=
  {| config_cloud_name := Some "demo";
     config_api_key := Some "key";
     config_api_secret := Some "secret" |}.

(** One upload, then a second one within the same millisecond. *)
Definition one_upload : World :=
  (demo_app (quiet 1700000000000 1 "sunset") (POST_api_upload sunset_form) empty_world).2.

Definition two_uploads : World :=
  (demo_app (quiet 1700000000000 2 "tower") (POST_api_upload tower_form) one_upload).2.

(** A record without a public id, as one written before the field was
    added to the schema. *)
Definition legacy_project : Project :=
  {| _id := 7; title := Some "Old"; category := Some "Archive";
     imageUrl := Some "https://example.org/old.jpg"; publicId := None;
     createdAt := 1600000000000 |}.

Definition legacy_world : World :=
  {| projects := {[ 7%N := legacy_project ]}; assets := ∅; calls := [] |}.

Definition id_1 : string := "000000000000000000000001".
Definition id_7 : string := "000000000000000000000007".
Definition absent_id : string := "000000000000000000000000".

Definition no_environment : ProcessEnv :=
  {| MONGO_URI := None; CLOUDINARY_CLOUD_NAME := None; CLOUDINARY_API_KEY := None;
     CLOUDINARY_API_SECRET := None; PORT := None |}.

(** ** Further vocabulary *)

(** Each record is stored under the [_id] it carries. *)
Definition keyed (w : World) : Prop :=
  ∀ k p, projects w !! k = Some p → _id p = k.





Definition second_image : FilePart :=
  {| fieldname := "image";
     content := {| format := "png"; img_width := 640; img_height := 480 |} |}.

Definition port_70000 : ProcessEnv :=
  {| MONGO_URI := Some "mongodb://localhost/gallery";
     CLOUDINARY_CLOUD_NAME := None; CLOUDINARY_API_KEY := None;
     CLOUDINARY_API_SECRET := None; PORT := Some "70000" |}.

Definition empty_uri : ProcessEnv :=
  {| MONGO_URI := Some EmptyString;
     CLOUDINARY_CLOUD_NAME := Some "demo"; CLOUDINARY_API_KEY := Some "key";
     CLOUDINARY_API_SECRET := Some "secret"; PORT := Some "8080" |}.

(** * Properties *)

Global Instance newest_first_total : Total newest_first.
Proof. intros p q. unfold newest_first. lia. Qed.

Global Instance newest_first_trans : Transitive newest_first.
Proof. intros p q r. unfold newest_first. lia. Qed.

Lemma descending_distinct_strict (l : list Project) :
  descending l → NoDup (createdAt <$> l) → strictly_descending l.
Proof.
  unfold descending, strictly_descending.
  induction 1 as [|p l Hl IH Hp]; intros Hnd; [constructor|].
  rewrite fmap_cons in Hnd. apply NoDup_cons in Hnd as [Hnotin Hnd].
  constructor; [by apply IH|].
  rewrite Forall_forall in Hp |- *. intros q Hq.
  specialize (Hp q Hq). unfold newest_first in Hp. unfold older.
  destruct (decide (createdAt q = createdAt p)) as [Heq|]; [|lia].
  exfalso. apply Hnotin. rewrite <- Heq. by apply list_elem_of_fmap_2.
Qed.

Lemma documents_elem_of (w : World) (p : Project) :
  p ∈ documents w ↔ ∃ k, projects w !! k = Some p.
Proof.
  unfold documents. rewrite list_elem_of_fmap. split.
  - intros [[k q] [-> Hkq]]. exists k. by apply elem_of_map_to_list in Hkq.
  - intros [k Hk]. exists (k, p). split; [done|]. by apply elem_of_map_to_list.
Qed.

(** *** The computations *)

Lemma run_bind {A B} (c : Async A) (k : A → Async B) (w : World) :
  (x <- c ;; k x) w =
  match c w with
  | (Resolved a, w') => k a w'
  | (Rejected e, w') => (Rejected e, w')
  end.
Proof.
  revert w. induction c as [[a|e]|X outside k' IH]; intros w; cbn; [done..|].
  destruct (outside w) as [o w']. apply IH.
Qed.

Lemma run_try_catch {A} (c : Async A) (handler : option string → Async A) (w : World) :
  try_catch c handler w =
  match c w with
  | (Resolved a, w') => (Resolved a, w')
  | (Rejected e, w') => handler e w'
  end.
Proof.
  revert w. induction c as [[a|e]|X outside k' IH]; intros w; cbn; [done..|].
  destruct (outside w) as [o w']. apply IH.
Qed.

(** Running a computation is advancing it step by step. *)
Lemma run_advance {A} (c : Async A) (w : World) :
  c w = (advance c w).1 (advance c w).2.
Proof.
  destruct c as [o|X outside k]; cbn; [done|].
  by destruct (outside w).
Qed.

Ltac unfold_server :=
  unfold app, route, respond, get_projects, post_upload, delete_project,
    upload_single_more, removeFile, upload_single, uploader_upload, uploader_destroy,
    Project_find_sorted, Project_save, Project_findById, Project_findByIdAndDelete,
    insert_document, await, ret, throw, res_json, res_status_json.

Section Properties.

Variable castObjectId : string → option ObjectId.
Variable cloud_name : string.

(** *** Listing *)

Lemma get_projects_run (env : Env) (w : World) :
  get_projects env w =
  let w' := record_call ProjectFind w in
  match find_fails env with
  | Some m => (Resolved (res_status_json 500 (JsonError (Some m))), w')
  | None =>
      (Resolved (res_json (JsonProjects (merge_sort newest_first (documents w)))), w')
  end.
Proof.
  unfold get_projects, Project_find_sorted, await, ret. cbn.
  destruct (find_fails env); reflexivity.
Qed.

Lemma get_route_run (env : Env) (w : World) :
  app castObjectId cloud_name env GET_api_projects w =
  let w' := record_call ProjectFind w in
  match find_fails env with
  | Some m => ({| status := 500; body := JsonError (Some m) |}, w')
  | None =>
      ({| status := 200;
          body := JsonProjects (merge_sort newest_first (documents w)) |}, w')
  end.
Proof.
  unfold app, route, respond. rewrite get_projects_run.
  destruct (find_fails env); reflexivity.
Qed.

(** C2, as the code has it: the listing answers 200 with every persisted
    record, each once, newest first; records that share a [createdAt]
    stand next to each other in some order, so the order is strict
    exactly as far as the timestamps are distinct.  An empty store gives
    the empty list, and a failing query gives 500 with the error's
    message.  The store itself is left as it was. *)
Theorem get_projects_newest_first (env : Env) (w : World) :
  projects (app castObjectId cloud_name env GET_api_projects w).2 = projects w ∧
  match find_fails env with
  | Some m =>
      (app castObjectId cloud_name env GET_api_projects w).1 =
        {| status := 500; body := JsonError (Some m) |}
  | None =>
      ∃ l,
        (app castObjectId cloud_name env GET_api_projects w).1 =
          {| status := 200; body := JsonProjects l |} ∧
        l ≡ₚ documents w ∧
        (∀ p, p ∈ l ↔ ∃ k, projects w !! k = Some p) ∧
        descending l ∧
        (NoDup (createdAt <$> documents w) → strictly_descending l) ∧
        (projects w = ∅ → l = [])
  end.
Proof.
  rewrite get_route_run.
  destruct (find_fails env) as [m|]; cbn; [done|].
  split; [done|]. eexists; split; [reflexivity|].
  pose proof (merge_sort_Permutation newest_first (documents w)) as Hperm.
  split; [done|]. split; [|split; [|split]].
  - intros p. rewrite Hperm. apply documents_elem_of.
  - apply (StronglySorted_merge_sort newest_first).
  - intros Hnd. apply descending_distinct_strict.
    + apply (StronglySorted_merge_sort newest_first).
    + by rewrite Hperm.
  - intros Hempty. apply Permutation_nil_r.
    rewrite Hperm. unfold documents. rewrite Hempty. by rewrite map_to_list_empty.
Qed.

(** *** Deleting *)

(** C1.  When the lookup finds a record that has a public id, the
    handler issues exactly one remote delete, for that public id, and
    only after it has resolved goes on to the metadata delete; when the
    remote delete rejects, that was the last call, the answer is 500
    with the error's message and the record is still stored.  When the
    record has no public id no remote call is issued at all: the
    metadata delete is the only call after the lookup.  A metadata
    delete that is reached and resolves removes the record and the
    answer is 200. *)
Theorem delete_existing_record (env : Env) (id : string) (oid : ObjectId)
    (p : Project) (w : World) :
  castObjectId id = Some oid →
  projects w !! oid = Some p →
  findById_fails env = None →
  ∃ res w' trace,
    app castObjectId cloud_name env (DELETE_api_projects id) w = (res, w') ∧
    calls w' = calls w ++ ProjectFindById id :: trace ∧
    (has_publicId p →
       ∃ pid, publicId p = Some pid ∧
         match destroy_fails env with
         | Some m =>
             trace = [UploaderDestroy pid] ∧
             res = {| status := 500; body := JsonError m |} ∧
             projects w' = projects w ∧
             assets w' = assets w
         | None =>
             trace = [UploaderDestroy pid; ProjectFindByIdAndDelete id] ∧
             assets w' = delete pid (assets w) ∧
             metadata_delete_outcome env oid w res w'
         end) ∧
    (¬ has_publicId p →
       trace = [ProjectFindByIdAndDelete id] ∧
       assets w' = assets w ∧
       metadata_delete_outcome env oid w res w').
Proof.
  intros Hcast Hp Hfind.
  unfold_server. unfold metadata_delete_outcome, has_publicId. cbn.
  rewrite Hcast, Hfind. cbn. rewrite Hp.
  destruct (publicId p) as [[|c pid]|] eqn:Hpid; cbn.
  - destruct (findByIdAndDelete_fails env) as [m|]; cbn;
      (do 3 eexists; split; [reflexivity|]); cbn;
      (split; [by rewrite <- app_assoc|]); (split; [done|]); by intros _.
  - destruct (destroy_fails env) as [m|]; cbn.
    + do 3 eexists; split; [reflexivity|]; cbn.
      split; [by rewrite <- app_assoc|]. split; [|done].
      intros _. by eexists.
    + destruct (findByIdAndDelete_fails env) as [m|]; cbn;
        (do 3 eexists; split; [reflexivity|]); cbn;
        (split; [by rewrite <- !app_assoc|]); (split; [|done]);
        intros _; by eexists.
  - destruct (findByIdAndDelete_fails env) as [m|]; cbn;
      (do 3 eexists; split; [reflexivity|]); cbn;
      (split; [by rewrite <- app_assoc|]); (split; [done|]); by intros _.
Qed.

(** C5, as the code has it: when the id is one the driver accepts, the
    lookup resolves and finds no record, the answer is 404 with
    [{error: "Project not found"}]; the lookup was the only call, so no
    remote delete was issued, and the store and the remote images are as
    before. *)
Theorem delete_absent_record (env : Env) (id : string) (oid : ObjectId) (w : World) :
  castObjectId id = Some oid →
  projects w !! oid = None →
  findById_fails env = None →
  ∃ w',
    app castObjectId cloud_name env (DELETE_api_projects id) w =
      ({| status := 404; body := JsonError (Some "Project not found") |}, w') ∧
    calls w' = calls w ++ [ProjectFindById id] ∧
    projects w' = projects w ∧
    assets w' = assets w.
Proof.
  intros Hcast Hnone Hfind.
  unfold_server. cbn. rewrite Hcast, Hfind. cbn. rewrite Hnone. cbn.
  by eexists.
Qed.

(** C10.  An id the driver does not accept makes the lookup throw: the
    answer is 500 with the cast error's message, the lookup was the only
    call, and the store and the remote images are as before.  Whenever
    the answer is 404, the id was accepted by the driver and matched no
    record. *)
Theorem delete_malformed_id (env : Env) (id : string) (w : World) :
  (castObjectId id = None →
     ∃ w',
       app castObjectId cloud_name env (DELETE_api_projects id) w =
         ({| status := 500; body := JsonError (Some (cast_error id)) |}, w') ∧
       calls w' = calls w ++ [ProjectFindById id] ∧
       projects w' = projects w ∧
       assets w' = assets w) ∧
  (status (app castObjectId cloud_name env (DELETE_api_projects id) w).1 = 404 →
     ∃ oid, castObjectId id = Some oid ∧ projects w !! oid = None).
Proof.
  unfold_server. cbn.
  split.
  - intros ->. cbn. by eexists.
  - destruct (castObjectId id) as [oid|]; cbn; [|done].
    destruct (findById_fails env); cbn; [done|].
    destruct (projects w !! oid) as [p|] eqn:Hp; cbn; [|by eexists].
    destruct (publicId p) as [[|c pid]|]; cbn;
      repeat (match goal with
              | |- context [match ?o with Some _ => _ | None => _ end] =>
                  destruct o; cbn
              end); done.
Qed.

(** *** Uploading *)

Lemma missing_paths_nil (doc : Project) :
  missing_paths projectSchema doc = [] ↔ complete doc.
Proof.
  unfold missing_paths, missing, complete. cbn.
  destruct (truthy (title doc)), (truthy (category doc)), (truthy (imageUrl doc));
    cbn; split; try done; intros (? & ? & ?); done.
Qed.

(** What a save does, case by case. *)
Lemma Project_save_run (env : Env) (doc : Project) (w : World) :
  Project_save env doc w =
  match missing_paths projectSchema doc with
  | [] =>
      match save_fails env with
      | Some m => (Rejected (Some m), record_call (ProjectSave doc) w)
      | None =>
          match projects w !! _id doc with
          | Some _ => (Rejected (Some duplicate_key_message), record_call (ProjectSave doc) w)
          | None =>
              (Resolved doc,
               {| projects := <[_id doc := doc]> (projects w);
                  assets := assets w;
                  calls := calls w ++ [ProjectSave doc] |})
          end
      end
  | paths => (Rejected (Some (validation_message paths)), record_call (ProjectSave doc) w)
  end.
Proof.
  unfold Project_save, insert_document, await. cbn.
  destruct (missing_paths projectSchema doc); [|done].
  destruct (save_fails env); [done|].
  by destruct (projects w !! _id doc).
Qed.

Lemma Project_save_resolved (env : Env) (doc saved : Project) (w w' : World) :
  Project_save env doc w = (Resolved saved, w') →
  saved = doc ∧ complete doc ∧ save_fails env = None ∧
  projects w !! _id doc = None ∧
  projects w' = <[_id doc := doc]> (projects w) ∧
  assets w' = assets w ∧
  calls w' = calls w ++ [ProjectSave doc].
Proof.
  rewrite Project_save_run.
  pose proof (missing_paths_nil doc) as Hnil.
  destruct (missing_paths projectSchema doc); [|done].
  destruct (save_fails env); [done|].
  destruct (projects w !! _id doc) eqn:Hid; [done|].
  intros [= <- <-]. cbn. repeat split; try done; by apply Hnil.
Qed.

Lemma Project_save_rejected (env : Env) (doc : Project) (m : option string)
    (w w' : World) :
  Project_save env doc w = (Rejected m, w') →
  projects w' = projects w ∧ assets w' = assets w ∧
  calls w' = calls w ++ [ProjectSave doc].
Proof.
  rewrite Project_save_run.
  destruct (missing_paths projectSchema doc).
  - destruct (save_fails env); [by intros [= <- <-]|].
    destruct (projects w !! _id doc); [by intros [= <- <-]|done].
  - by intros [= <- <-].
Qed.

(** What a resolved [upload.single('image')] has done. *)
Lemma upload_single_resolved (env : Env) (form : MultipartForm) (req : Request)
    (w w1 : World) :
  upload_single cloud_name env form w = (Resolved req, w1) →
  body_title req = form_title form ∧
  body_category req = form_category form ∧
  match form_image form with
  | None => file req = None ∧ w1 = w
  | Some img =>
      let id := "lented-gallery/" +:+ asset_name env in
      let r := {| public_id := id; secure_url := delivery_url cloud_name id (format img) |} in
      upload_fails env = None ∧
      format img ∈ allowed_formats storage ∧
      uploader_upload cloud_name env storage img w = (Resolved r, w1) ∧
      file req = Some {| path := secure_url r; filename := public_id r |} ∧
      projects w1 = projects w ∧
      assets w1 =
        <[id := if img_width img <=? 1000 then img else scale_to_width 1000 img]> (assets w) ∧
      calls w1 = calls w ++ [UploaderUpload "lented-gallery" img]
  end.
Proof.
  unfold upload_single. destruct (form_image form) as [img|].
  - rewrite run_bind.
    destruct (uploader_upload cloud_name env storage img w) as [[r|m] w0] eqn:Hup; [|done].
    unfold ret. cbn. intros [= <- <-]. cbn.
    revert Hup. unfold uploader_upload, await, format_allowed. cbn.
    destruct (upload_fails env); cbn; [done|].
    case_bool_decide as Hfmt; cbn; [|done].
    intros [= <- <-]. cbn. repeat split; done.
  - unfold ret. cbn. by intros [= <- <-].
Qed.

Lemma upload_single_rejected (env : Env) (form : MultipartForm) (m : option string)
    (w w1 : World) :
  upload_single cloud_name env form w = (Rejected m, w1) →
  projects w1 = projects w ∧ assets w1 = assets w ∧
  ∃ img, form_image form = Some img ∧
         calls w1 = calls w ++ [UploaderUpload "lented-gallery" img] ∧
         (upload_fails env = None → format img ∉ allowed_formats storage).
Proof.
  unfold upload_single. destruct (form_image form) as [img|]; [|done].
  rewrite run_bind.
  destruct (uploader_upload cloud_name env storage img w) as [[r|m'] w0] eqn:Hup; [done|].
  intros [= <- <-].
  revert Hup. unfold uploader_upload, await, format_allowed. cbn.
  destruct (upload_fails env); cbn.
  - intros [= <- <-]. cbn. repeat split; try done. by exists img.
  - case_bool_decide as Hfmt; cbn.
    + done.
    + intros [= <- <-]. cbn. repeat split; try done. by exists img.
Qed.

Lemma post_route_after_middleware (env : Env) (form : MultipartForm) (req : Request)
    (w w1 : World) :
  upload_single cloud_name env form w = (Resolved req, w1) →
  app castObjectId cloud_name env (POST_api_upload form) w =
    respond (post_upload env req) w1.
Proof. intros Hup. unfold app, route, respond. by rewrite run_bind, Hup. Qed.

(** What the handler does once the middleware has left a file. *)
Lemma post_upload_run (env : Env) (req : Request) (f : MulterFile) (w : World) :
  file req = Some f →
  respond (post_upload env req) w =
  match Project_save env
          (new_Project env (body_title req) (body_category req)
                       (Some (path f)) (Some (filename f))) w with
  | (Resolved saved, w') => ({| status := 201; body := JsonProject saved |}, w')
  | (Rejected m, w') => ({| status := 500; body := JsonError m |}, w')
  end.
Proof.
  intros Hfile. unfold respond, post_upload. rewrite Hfile.
  rewrite run_try_catch, run_bind.
  by destruct (Project_save _ _ w) as [[saved|m] w'].
Qed.


(** C4.  A form without the file field is answered 400 with an error
    body and nothing else happens: no call reaches the record store or
    the asset store, so no record is created and no upload is issued. *)
Theorem upload_without_file (env : Env) (form : MultipartForm) (w : World) :
  form_image form = None →
  app castObjectId cloud_name env (POST_api_upload form) w =
    ({| status := 400; body := JsonError (Some "No image file uploaded") |}, w).
Proof.
  intros Hnone. unfold_server. rewrite Hnone. reflexivity.
Qed.

(** What an upload request does, case by case. *)
Lemma post_route_cases (env : Env) (form : MultipartForm) (w : World) :
  (form_image form = None ∧
   app castObjectId cloud_name env (POST_api_upload form) w =
     ({| status := 400; body := JsonError (Some "No image file uploaded") |}, w)) ∨
  (∃ m w1,
     upload_single cloud_name env form w = (Rejected m, w1) ∧
     app castObjectId cloud_name env (POST_api_upload form) w =
       ({| status := 500; body := HtmlError m |}, w1)) ∨
  (∃ img req f w1,
     form_image form = Some img ∧
     upload_single cloud_name env form w = (Resolved req, w1) ∧
     file req = Some f ∧
     filename f = folder storage +:+ "/" +:+ asset_name env ∧
     ((∃ w2,
         Project_save env
           (new_Project env (form_title form) (form_category form)
                        (Some (path f)) (Some (filename f))) w1 =
           (Resolved
              (new_Project env (form_title form) (form_category form)
                           (Some (path f)) (Some (filename f))), w2) ∧
         app castObjectId cloud_name env (POST_api_upload form) w =
           ({| status := 201;
               body := JsonProject
                         (new_Project env (form_title form) (form_category form)
                                      (Some (path f)) (Some (filename f))) |}, w2)) ∨
      (∃ m w2,
         Project_save env
           (new_Project env (form_title form) (form_category form)
                        (Some (path f)) (Some (filename f))) w1 =
           (Rejected (Some m), w2) ∧
         app castObjectId cloud_name env (POST_api_upload form) w =
           ({| status := 500; body := JsonError (Some m) |}, w2)))).
Proof.
  destruct (upload_single cloud_name env form w) as [[req|m] w1] eqn:Hup.
  - rewrite (post_route_after_middleware env form req w w1 Hup).
    pose proof (upload_single_resolved env form req w w1 Hup)
      as (Htitle & Hcat & Hcase).
    destruct (form_image form) as [img|] eqn:Himg.
    + right; right. cbn zeta in Hcase. destruct Hcase as (_ & _ & _ & Hfile & _).
      eexists img, req, _, w1. split; [done|]. split; [done|]. split; [exact Hfile|].
      split; [done|].
      rewrite (post_upload_run env req _ w1 Hfile), Htitle, Hcat.
      match goal with |- context [run (Project_save env ?d) w1] =>
        destruct (Project_save env d w1) as [[saved|m] w2] eqn:Hsave end.
      * left. exists w2.
        pose proof (Project_save_resolved env _ saved w1 w2 Hsave) as (-> & _).
        done.
      * right. rewrite Project_save_run in Hsave.
        destruct (missing_paths projectSchema _); [|injection Hsave as <- <-; by eexists _, _].
        destruct (save_fails env); [injection Hsave as <- <-; by eexists _, _|].
        destruct (projects w1 !! _); [injection Hsave as <- <-; by eexists _, _|done].
    + left. destruct Hcase as [Hfile ->]. split; [done|].
      unfold respond, post_upload. by rewrite Hfile.
  - right; left. exists m, w1. split; [done|].
    unfold app, route, respond. by rewrite run_bind, Hup.
Qed.

(** What an upload request does to the collection: it adds the record
    it answers with, or leaves the collection as it was. *)
Lemma post_route_outcome (env : Env) (form : MultipartForm) (w : World) :
  (∃ doc,
     (app castObjectId cloud_name env (POST_api_upload form) w).1 =
       {| status := 201; body := JsonProject doc |} ∧
     complete doc ∧
     title doc = form_title form ∧ category doc = form_category form ∧
     projects w !! _id doc = None ∧
     projects (app castObjectId cloud_name env (POST_api_upload form) w).2 =
       <[_id doc := doc]> (projects w)) ∨
  (status (app castObjectId cloud_name env (POST_api_upload form) w).1 ≠ 201 ∧
   projects (app castObjectId cloud_name env (POST_api_upload form) w).2 = projects w).
Proof.
  destruct (post_route_cases env form w)
    as [[_ ->]|[(m & w1 & Hup & ->)|(img & req & f & w1 & _ & Hup & _ & _ & Hsave)]].
  - by right.
  - right. apply upload_single_rejected in Hup as (Hsame & _). done.
  - apply upload_single_resolved in Hup as (_ & _ & Hup).
    assert (projects w1 = projects w) as Hprojects.
    { destruct (form_image form); [|by destruct Hup as [_ ->]].
      cbn zeta in Hup. by destruct Hup as (_ & _ & _ & _ & ? & _). }
    destruct Hsave as [(w2 & Hsave & ->)|(m & w2 & Hsave & ->)].
    + apply Project_save_resolved in Hsave as (_ & Hcomplete & _ & Hfresh & Hins & _).
      left. eexists. cbn. rewrite <- Hprojects. done.
    + apply Project_save_rejected in Hsave as (Hsame & _).
      right. cbn. rewrite Hsame. done.
Qed.

(** An upload with one more file part is the plain upload of that part
    when it is the first file and sits in the field [image]; otherwise
    the middleware gives the request up and the collection is as it
    was. *)
Lemma post_more_cases (env : Env) (form : MultipartForm) (extra : FilePart) (w : World) :
  (form_image form = None ∧ fieldname extra = "image" ∧
   app castObjectId cloud_name env (POST_api_upload_more form extra) w =
     app castObjectId cloud_name env
       (POST_api_upload
          {| form_title := form_title form;
             form_category := form_category form;
             form_image := Some (content extra) |}) w) ∨
  ((app castObjectId cloud_name env (POST_api_upload_more form extra) w).1 =
     {| status := 500; body := HtmlError (Some "Unexpected field") |} ∧
   projects (app castObjectId cloud_name env (POST_api_upload_more form extra) w).2 =
     projects w).
Proof.
  unfold app, route, respond, upload_single_more.
  destruct (form_image form) as [img|].
  - right. unfold removeFile, uploader_upload, uploader_destroy, await, ret, throw,
      format_allowed. cbn.
    destruct (upload_fails env); cbn; [done|].
    case_bool_decide; cbn; [|done].
    destruct (destroy_fails env); cbn; done.
  - destruct (String.eqb_spec (fieldname extra) "image") as [Heq|Hne].
    + left. done.
    + right. done.
Qed.

Lemma get_route_projects (env : Env) (w : World) :
  projects (app castObjectId cloud_name env GET_api_projects w).2 = projects w.
Proof. rewrite get_route_run. by destruct (find_fails env). Qed.

(** What a delete request does to the collection. *)
Lemma delete_route_outcome (env : Env) (id : string) (w : World) :
  projects (app castObjectId cloud_name env (DELETE_api_projects id) w).2 = projects w ∨
  ∃ oid, castObjectId id = Some oid ∧
         projects (app castObjectId cloud_name env (DELETE_api_projects id) w).2 =
           delete oid (projects w).
Proof.
  unfold_server. cbn.
  destruct (castObjectId id) as [oid|]; cbn; [|by left].
  destruct (findById_fails env); cbn; [by left|].
  destruct (projects w !! oid) as [p|]; cbn; [|by left].
  destruct (publicId p) as [[|c pid]|]; cbn;
    repeat (match goal with
            | |- context [match ?o with Some _ => _ | None => _ end] =>
                destruct o; cbn
            end); first [by left | right; by eexists].
Qed.

(** What any request does to the collection: nothing, or it adds one
    complete record under an id that was free, or it deletes the record
    of the id a delete request names. *)
Lemma app_projects (env : Env) (r : HttpRequest) (w : World) :
  projects (app castObjectId cloud_name env r w).2 = projects w ∨
  (∃ doc,
     complete doc ∧ projects w !! _id doc = None ∧
     projects (app castObjectId cloud_name env r w).2 = <[_id doc := doc]> (projects w)) ∨
  (∃ id oid,
     r = DELETE_api_projects id ∧ castObjectId id = Some oid ∧
     projects (app castObjectId cloud_name env r w).2 = delete oid (projects w)).
Proof.
  destruct r as [|form|id|form extra| | | |]; try (by left).
  - left. apply get_route_projects.
  - destruct (post_route_outcome env form w)
      as [(doc & _ & ? & _ & _ & ? & ?)|[_ ?]]; [right; left; by exists doc|by left].
  - destruct (delete_route_outcome env id w) as [?|(oid & ? & ?)];
      [by left|right; right; by exists id, oid].
  - destruct (post_more_cases env form extra w) as [(_ & _ & ->)|[_ ?]]; [|by left].
    destruct (post_route_outcome env
                {| form_title := form_title form;
                   form_category := form_category form;
                   form_image := Some (content extra) |} w)
      as [(doc & _ & ? & _ & _ & ? & ?)|[_ ?]]; [right; left; by exists doc|by left].
Qed.

(** C7.  When an upload has been answered 201 with a record and the
    listing is fetched next, with its query resolving, the list in the
    200 answer contains that very record, so in particular one with the
    same title, category, image URL and public id. *)
Theorem upload_then_list (env1 env2 : Env) (form : MultipartForm) (p : Project)
    (w : World) :
  (app castObjectId cloud_name env1 (POST_api_upload form) w).1 =
    {| status := 201; body := JsonProject p |} →
  find_fails env2 = None →
  ∃ l,
    (app castObjectId cloud_name env2 GET_api_projects
       (app castObjectId cloud_name env1 (POST_api_upload form) w).2).1 =
      {| status := 200; body := JsonProjects l |} ∧
    p ∈ l ∧
    ∃ q, q ∈ l ∧ title q = title p ∧ category q = category p ∧
         imageUrl q = imageUrl p ∧ publicId q = publicId p.
Proof.
  intros Hres Hfind.
  destruct (post_route_outcome env1 form w) as [(doc & Hdoc & _ & _ & _ & _ & Hins)|[Hne _]].
  - rewrite Hres in Hdoc. injection Hdoc as <-.
    rewrite get_route_run, Hfind. cbn.
    eexists; split; [reflexivity|].
    assert (p ∈ merge_sort newest_first
                (documents (app castObjectId cloud_name env1 (POST_api_upload form) w).2))
      as Hin.
    { rewrite merge_sort_Permutation. apply documents_elem_of.
      exists (_id p). rewrite Hins. apply lookup_insert_eq. }
    split; [done|]. by exists p.
  - rewrite Hres in Hne. done.
Qed.

(** *** The upload pipeline *)

Lemma round_div_bounds (a b : Z) :
  0 < b → 0 ≤ a →
  0 ≤ round_div a b ∧ 2 * Z.abs (round_div a b * b - a) ≤ b.
Proof.
  intros Hb Ha. unfold round_div.
  pose proof (Z.div_mod (2 * a + b) (2 * b) ltac:(lia)) as Hdiv.
  pose proof (Z.mod_pos_bound (2 * a + b) (2 * b) ltac:(lia)) as Hmod.
  assert (0 ≤ (2 * a + b) / (2 * b)) by (apply Z.div_pos; lia).
  split; [done|]. nia.
Qed.

Lemma limit_width_1000 (img : Image) :
  0 < img_width img → 0 < img_height img →
  let stored := if img_width img <=? 1000 then img else scale_to_width 1000 img in
  format stored = format img ∧
  img_width stored ≤ 1000 ∧
  0 < img_width stored ∧ 0 < img_height stored ∧
  img_width stored ≤ img_width img ∧
  img_height stored ≤ img_height img ∧
  (img_width img ≤ 1000 → stored = img) ∧
  Z.abs (img_height stored * img_width img - img_height img * img_width stored)
    ≤ img_width img.
Proof.
  intros Hw Hh. cbn zeta.
  destruct (Z.leb_spec (img_width img) 1000) as [Hle|Hgt].
  - repeat split; try done; try lia.
  - unfold scale_to_width. cbn.
    pose proof (round_div_bounds (img_height img * 1000) (img_width img) Hw ltac:(lia))
      as [Hpos Hnear].
    generalize dependent (round_div (img_height img * 1000) (img_width img)).
    generalize dependent (img_height img). generalize dependent (img_width img).
    intros wd Hw Hgt ht Hh r Hpos Hnear.
    assert (r ≤ ht) as Hr.
    { destruct (Z.le_gt_cases r ht) as [|Hbig]; [done|exfalso].
      assert (ht * wd + wd ≤ r * wd) by nia.
      assert (1000 * ht ≤ ht * wd) by nia. lia. }
    repeat split; try done; try lia.
    destruct (Z.max_spec 1 r) as [[Hlt ->]|[Hge ->]]; [lia|].
    assert (r = 0 ∨ r = 1) as [-> | ->] by lia; lia.
Qed.

(** C9, as the code has it: the pipeline stores an image only when its
    format is one of jpg, png, jpeg, webp, under the public id
    [lented-gallery/<name>]; the stored image is at most 1000 pixels
    wide, is never larger than the original on either side, is the
    original itself when that is at most 1000 pixels wide, and otherwise
    has its height scaled by the same factor as its width, to the
    nearest whole pixel.  The height is not bounded.  A rejected upload
    stores nothing, and when the provider call itself did not fail the
    rejection is for a format outside the list. *)
Theorem upload_pipeline_configuration (env : Env) (form : MultipartForm)
    (img : Image) (w : World) :
  form_image form = Some img →
  0 < img_width img →
  0 < img_height img →
  match upload_single cloud_name env form w with
  | (Resolved req, w1) =>
      format img ∈ ["jpg"; "png"; "jpeg"; "webp"] ∧
      ∃ f stored,
        file req = Some f ∧
        filename f = "lented-gallery/" +:+ asset_name env ∧
        assets w1 !! filename f = Some stored ∧
        format stored = format img ∧
        img_width stored ≤ 1000 ∧
        0 < img_width stored ∧ 0 < img_height stored ∧
        img_width stored ≤ img_width img ∧
        img_height stored ≤ img_height img ∧
        (img_width img ≤ 1000 → stored = img) ∧
        Z.abs (img_height stored * img_width img - img_height img * img_width stored)
          ≤ img_width img
  | (Rejected m, w1) =>
      assets w1 = assets w ∧
      (upload_fails env = None → format img ∉ ["jpg"; "png"; "jpeg"; "webp"])
  end.
Proof.
  intros Himg Hw Hh.
  destruct (upload_single cloud_name env form w) as [[req|m] w1] eqn:Hup.
  - apply upload_single_resolved in Hup as (_ & _ & Hup).
    rewrite Himg in Hup. cbn zeta in Hup.
    destruct Hup as (_ & Hfmt & _ & Hfile & _ & Hassets & _).
    split; [done|]. do 2 eexists. split; [exact Hfile|].
    cbn [filename public_id]. split; [done|].
    rewrite Hassets, lookup_insert_eq. split; [done|].
    by apply limit_width_1000.
  - apply upload_single_rejected in Hup as (_ & Hassets & img' & Himg' & _ & Hfmt).
    rewrite Himg in Himg'. injection Himg' as <-. done.
Qed.

(** *** The stored records *)

Lemma app_preserves_complete (env : Env) (r : HttpRequest) (w : World) :
  store_complete w → store_complete (app castObjectId cloud_name env r w).2.
Proof.
  intros Hw k p.
  destruct (app_projects env r w)
    as [->|[(doc & Hdoc & _ & ->)|(id & oid & _ & _ & ->)]].
  - apply Hw.
  - rewrite lookup_insert. case_decide; [by intros [= <-]|apply Hw].
  - rewrite lookup_delete. case_decide; [done|apply Hw].
Qed.

Lemma app_keeps_records (env : Env) (r : HttpRequest) (w : World)
    (k : ObjectId) (p : Project) :
  projects w !! k = Some p →
  projects (app castObjectId cloud_name env r w).2 !! k = Some p ∨
  (projects (app castObjectId cloud_name env r w).2 !! k = None ∧
   ∃ id, r = DELETE_api_projects id ∧ castObjectId id = Some k).
Proof.
  intros Hp.
  destruct (app_projects env r w)
    as [->|[(doc & _ & Hfresh & ->)|(id & oid & -> & Hoid & ->)]].
  - by left.
  - left. rewrite lookup_insert_ne; [done|]. intros Heq. congruence.
  - rewrite lookup_delete. case_decide as Hk; [|by left].
    right. split; [done|]. exists id. by subst.
Qed.

(** C6.  Every record in a store the server has filled from an empty
    collection has a non-empty title, category and image URL; each of
    the three operations keeps it so on any store where it holds; and a
    record that is stored before a request is, after it, either stored
    unchanged under the same id or, when the request deleted that id,
    gone. *)
Theorem records_complete_and_immutable :
  (∀ w, reachable castObjectId cloud_name empty_world w → store_complete w) ∧
  (∀ env r w,
     store_complete w → store_complete (app castObjectId cloud_name env r w).2) ∧
  (∀ env r w k p,
     projects w !! k = Some p →
     projects (app castObjectId cloud_name env r w).2 !! k = Some p ∨
     (projects (app castObjectId cloud_name env r w).2 !! k = None ∧
      ∃ id, r = DELETE_api_projects id ∧ castObjectId id = Some k)).
Proof.
  split; [|split].
  - induction 1 as [|env r w _ IH].
    + intros k p. cbn. by rewrite lookup_empty.
    + by apply app_preserves_complete.
  - apply app_preserves_complete.
  - apply app_keeps_records.
Qed.

End Properties.

(** * Further properties of the routes *)

Section Routes.

Variable castObjectId : string → option ObjectId.
Variable cloud_name : string.

(** What a delete request that is answered 200 has done. *)
Lemma delete_route_ok (env : Env) (id : string) (w : World) :
  status (app castObjectId cloud_name env (DELETE_api_projects id) w).1 = 200 →
  ∃ oid p,
    castObjectId id = Some oid ∧
    projects w !! oid = Some p ∧
    findById_fails env = None ∧
    findByIdAndDelete_fails env = None ∧
    (app castObjectId cloud_name env (DELETE_api_projects id) w).1 =
      {| status := 200; body := JsonMessage "Project deleted successfully" |} ∧
    projects (app castObjectId cloud_name env (DELETE_api_projects id) w).2 =
      delete oid (projects w) ∧
    (has_publicId p →
       destroy_fails env = None ∧
       ∃ pid, publicId p = Some pid ∧
              assets (app castObjectId cloud_name env (DELETE_api_projects id) w).2 =
                delete pid (assets w)) ∧
    (¬ has_publicId p →
       assets (app castObjectId cloud_name env (DELETE_api_projects id) w).2 = assets w).
Proof.
  unfold_server. unfold has_publicId. cbn.
  destruct (castObjectId id) as [oid|]; cbn; [|done].
  destruct (findById_fails env); cbn; [done|].
  destruct (projects w !! oid) as [p|] eqn:Hp; cbn; [|done].
  destruct (publicId p) as [[|c pid]|] eqn:Hpub; cbn.
  - destruct (findByIdAndDelete_fails env); cbn; [done|].
    intros _. exists oid, p. rewrite Hpub. repeat split; done.
  - destruct (destroy_fails env); cbn; [done|].
    destruct (findByIdAndDelete_fails env); cbn; [done|].
    intros _. exists oid, p. rewrite Hpub. repeat split; try done.
    by eexists.
  - destruct (findByIdAndDelete_fails env); cbn; [done|].
    intros _. exists oid, p. rewrite Hpub. repeat split; done.
Qed.

(** *** Ids *)

Lemma app_preserves_keyed (env : Env) (r : HttpRequest) (w : World) :
  keyed w → keyed (app castObjectId cloud_name env r w).2.
Proof.
  intros Hw k p.
  destruct (app_projects castObjectId cloud_name env r w)
    as [->|[(doc & _ & _ & ->)|(id & oid & _ & _ & ->)]].
  - apply Hw.
  - rewrite lookup_insert. case_decide; [by intros [= <-]|apply Hw].
  - rewrite lookup_delete. case_decide; [done|apply Hw].
Qed.

Lemma reachable_keyed (w : World) :
  reachable castObjectId cloud_name empty_world w → keyed w.
Proof.
  induction 1 as [|env r w _ IH].
  - intros k p. cbn. by rewrite lookup_empty.
  - by apply app_preserves_keyed.
Qed.

Lemma keyed_documents_NoDup (w : World) :
  keyed w → NoDup (_id <$> documents w).
Proof.
  intros Hw. unfold documents.
  assert (_id <$> (snd <$> map_to_list (projects w)) = fst <$> map_to_list (projects w))
    as ->.
  { rewrite <- list_fmap_compose. apply list_fmap_ext.
    intros i [k p] Hkp. cbn.
    apply list_elem_of_lookup_2, elem_of_map_to_list in Hkp. by apply Hw. }
  apply NoDup_fst_map_to_list.
Qed.

(** X4.  In a store where every record sits under its own id, as in every
    store the server has filled from an empty collection, a listing whose
    query resolves never shows two records with the same id. *)
Theorem listing_ids_unique (env : Env) (w : World) :
  reachable castObjectId cloud_name empty_world w →
  find_fails env = None →
  ∃ l,
    (app castObjectId cloud_name env GET_api_projects w).1 =
      {| status := 200; body := JsonProjects l |} ∧
    NoDup (_id <$> l).
Proof.
  intros Hreach Hfind.
  rewrite get_route_run, Hfind. cbn.
  eexists; split; [reflexivity|].
  rewrite (merge_sort_Permutation newest_first (documents w)).
  by apply keyed_documents_NoDup, reachable_keyed.
Qed.

(** X3.  Once a delete request has been answered 200, a listing that
    follows it, with its query resolving, contains no record with the
    deleted id, and still contains every other record that was stored. *)
Theorem delete_then_list (env1 env2 : Env) (id : string) (w : World) :
  keyed w →
  status (app castObjectId cloud_name env1 (DELETE_api_projects id) w).1 = 200 →
  find_fails env2 = None →
  ∃ oid l,
    castObjectId id = Some oid ∧
    (app castObjectId cloud_name env2 GET_api_projects
       (app castObjectId cloud_name env1 (DELETE_api_projects id) w).2).1 =
      {| status := 200; body := JsonProjects l |} ∧
    (∀ q, q ∈ l → _id q ≠ oid) ∧
    (∀ k q, k ≠ oid → projects w !! k = Some q → q ∈ l).
Proof.
  intros Hkeyed Hok Hfind.
  destruct (delete_route_ok env1 id w Hok) as (oid & p & Hcast & _ & _ & _ & _ & Hdel & _).
  exists oid.
  generalize dependent (app castObjectId cloud_name env1 (DELETE_api_projects id) w).
  intros [res w1] _ Hdel. cbn [fst snd] in *.
  rewrite get_route_run, Hfind. cbn.
  eexists; split; [done|]. split; [reflexivity|]. split.
  - intros q. rewrite merge_sort_Permutation, documents_elem_of, Hdel.
    intros [k Hk]. apply lookup_delete_Some in Hk as [Hne Hk].
    by rewrite (Hkeyed k q Hk).
  - intros k q Hne Hk. rewrite merge_sort_Permutation, documents_elem_of, Hdel.
    exists k. by rewrite lookup_delete_ne.
Qed.

(** X5.  A delete request repeated after it was answered 200 is answered
    404 when its lookup resolves: the lookup is its only call and the
    store and the remote images stay as the first request left them. *)
Theorem delete_twice (env1 env2 : Env) (id : string) (w : World) :
  status (app castObjectId cloud_name env1 (DELETE_api_projects id) w).1 = 200 →
  findById_fails env2 = None →
  app castObjectId cloud_name env2 (DELETE_api_projects id)
    (app castObjectId cloud_name env1 (DELETE_api_projects id) w).2 =
    ({| status := 404; body := JsonError (Some "Project not found") |},
     record_call (ProjectFindById id)
       (app castObjectId cloud_name env1 (DELETE_api_projects id) w).2).
Proof.
  intros Hok Hfind.
  destruct (delete_route_ok env1 id w Hok) as (oid & p & Hcast & _ & _ & _ & _ & Hdel & _).
  generalize dependent (app castObjectId cloud_name env1 (DELETE_api_projects id) w).
  intros [res w'] _ Hdel. cbn in *.
  unfold_server. cbn.
  rewrite Hcast, Hfind. cbn. rewrite Hdel, lookup_delete_eq. done.
Qed.

(** *** Uploads *)





End Routes.

(** *** Requests in flight together *)

(** With nothing scheduled, two requests are served one after the
    other. *)
Lemma concurrently_in_turn (castObjectId : string → option ObjectId) (cloud_name : string)
    (env1 env2 : Env) (r1 r2 : HttpRequest) (w : World) :
  concurrently castObjectId cloud_name env1 r1 env2 r2 [] w =
  (let (res1, w1) := app castObjectId cloud_name env1 r1 w in
   let (res2, w2) := app castObjectId cloud_name env2 r2 w1 in
   (res1, res2, w2)).
Proof. reflexivity. Qed.

(** Steps of the first computation only are the first computation run
    alone, as far as they go. *)
Lemma interleave_first_alone {A B} (n : nat) (c1 : Async A) (c2 : Async B) (w : World) :
  (interleave (replicate n true) c1 c2 w).1.2 = c2 ∧
  (interleave (replicate n true) c1 c2 w).1.1 (interleave (replicate n true) c1 c2 w).2 =
    c1 w.
Proof.
  revert c1 w. induction n as [|n IH]; intros c1 w; cbn; [done|].
  destruct (advance c1 w) as [c1' w'] eqn:Hstep.
  destruct (IH c1' w') as [-> ->]. split; [done|].
  by rewrite (run_advance c1 w), Hstep.
Qed.

(** *** The collection, request by request *)



(** *** Start-up *)

(** C8, as the code has it: the entry point that reads [MONGO_URI] from
    the environment prints its diagnostic and exits with code 1, without
    connecting or listening, when the variable is absent or empty, and
    that is the only case in which it calls [process.exit]: with the
    variable present it connects, configures the provider and calls
    [app.listen], whatever the other variables are, and a failed
    connection attempt is only logged.  The one other way the start-up
    ends is an exception out of [app.listen] itself, which nothing
    catches.  [src/server.js] carries its connection string as a literal:
    it never calls [process.exit] and ends at start-up only when
    [app.listen] throws. *)
Theorem startup_fatal_condition (env : ProcessEnv)
    (listen_error connect_error : option string) :
  (truthy (MONGO_URI env) = false →
     EnvServer.start env listen_error connect_error =
       [console_error [Text EnvServer.fatal_message]; process_exit 1]) ∧
  (∀ uri,
     MONGO_URI env = Some uri →
     truthy (MONGO_URI env) = true →
     EnvServer.start env listen_error connect_error =
       mongoose_connect uri ::
       cloudinary_config
         {| config_cloud_name := CLOUDINARY_CLOUD_NAME env;
            config_api_key := CLOUDINARY_API_KEY env;
            config_api_secret := CLOUDINARY_API_SECRET env |} ::
       app_listen (listen_port env) ::
       match listen_error with
       | Some err => [uncaught_exception err]
       | None =>
           [console_log
              [Text ("ğŸš€ Server running on port " +:+ port_text (listen_port env))];
            match connect_error with
            | None => console_log [Text "âœ… MongoDB Connected"]
            | Some err =>
                console_error [Text "âŒ MongoDB Error:"; ErrorObject err]
            end]
       end) ∧
  (exits (EnvServer.start env listen_error connect_error) = true ↔
     truthy (MONGO_URI env) = false) ∧
  (exits (EnvServer.start env listen_error connect_error) = true →
     existsb is_listen (EnvServer.start env listen_error connect_error) = false) ∧
  (halts (EnvServer.start env listen_error connect_error) = true ↔
     truthy (MONGO_URI env) = false ∨ is_Some listen_error) ∧
  (serves (EnvServer.start env listen_error connect_error) = true ↔
     truthy (MONGO_URI env) = true ∧ listen_error = None) ∧
  (∀ mongoURI credentials,
     exits (ServerJs.start mongoURI credentials env listen_error connect_error) = false ∧
     (halts (ServerJs.start mongoURI credentials env listen_error connect_error) = true ↔
        is_Some listen_error) ∧
     (serves (ServerJs.start mongoURI credentials env listen_error connect_error) = true ↔
        listen_error = None)).
Proof.
  unfold EnvServer.start, ServerJs.start, listen_and_report, connect_report,
    serves, halts, exits, crashes.
  destruct (MONGO_URI env) as [[|c uri]|]; destruct listen_error, connect_error; cbn;
    repeat split; intros;
    repeat match goal with
           | H : _ ∨ _ |- _ => destruct H
           | H : _ ∧ _ |- _ => destruct H
           | H : is_Some _ |- _ => destruct H
           end;
    simplify_eq; eauto.
Qed.

(** * Examples *)

Example empty_listing :
  (demo_app (quiet 1700000000000 1 "sunset") GET_api_projects empty_world).1 =
    {| status := 200; body := JsonProjects [] |}.
Proof. vm_compute; reflexivity. Qed.

Example sunset_upload :
  (demo_app (quiet 1700000000000 1 "sunset") (POST_api_upload sunset_form) empty_world).1 =
    {| status := 201; body := JsonProject sunset_project |} ∧
  calls one_upload =
    [UploaderUpload "lented-gallery"
       {| format := "jpg"; img_width := 3000; img_height := 2000 |};
     ProjectSave sunset_project] ∧
  assets one_upload !! "lented-gallery/sunset" =
    Some {| format := "jpg"; img_width := 1000; img_height := 667 |}.
Proof. repeat split; vm_compute; reflexivity. Qed.

Example untitled_upload :
  (demo_app (quiet 1700000000000 1 "plain") (POST_api_upload untitled_form) empty_world).1 =
    {| status := 500;
       body := JsonError (Some "Project validation failed: title: Path `title` is required.") |} ∧
  projects (demo_app (quiet 1700000000000 1 "plain") (POST_api_upload untitled_form)
              empty_world).2 = ∅.
Proof. split; vm_compute; reflexivity. Qed.

Example gif_upload :
  demo_app (quiet 1700000000000 1 "loop") (POST_api_upload gif_form) empty_world =
    ({| status := 500; body := HtmlError (Some "Image file format gif not allowed") |},
     {| projects := ∅; assets := ∅;
        calls := [UploaderUpload "lented-gallery"
                    {| format := "gif"; img_width := 800; img_height := 600 |}] |}).
Proof. vm_compute; reflexivity. Qed.

Example legacy_delete :
  demo_app (quiet 1700000000001 3 "next") (DELETE_api_projects id_7) legacy_world =
    ({| status := 200; body := JsonMessage "Project deleted successfully" |},
     {| projects := ∅; assets := ∅;
        calls := [ProjectFindById id_7; ProjectFindByIdAndDelete id_7] |}).
Proof. vm_compute; reflexivity. Qed.

Example destroy_failure :
  (demo_app destroy_times_out (DELETE_api_projects id_1) one_upload).1 =
    {| status := 500; body := JsonError (Some "Request Timeout") |} ∧
  projects (demo_app destroy_times_out (DELETE_api_projects id_1) one_upload).2 !! 1%N =
    Some sunset_project ∧
  calls (demo_app destroy_times_out (DELETE_api_projects id_1) one_upload).2 =
    calls one_upload ++ [ProjectFindById id_1; UploaderDestroy "lented-gallery/sunset"].
Proof. repeat split; vm_compute; reflexivity. Qed.

Example metadata_delete_failure :
  (demo_app store_goes_away (DELETE_api_projects id_7) legacy_world).1 =
    {| status := 500; body := JsonError (Some "connection closed") |} ∧
  projects (demo_app store_goes_away (DELETE_api_projects id_7) legacy_world).2 !! 7%N =
    Some legacy_project.
Proof. split; vm_compute; reflexivity. Qed.

Example wide_image_is_scaled :
  crop_limit {| width := Some 1000; height := None; crop := "limit" |}
             {| format := "jpg"; img_width := 3000; img_height := 2000 |} =
    {| format := "jpg"; img_width := 1000; img_height := 667 |}.
Proof. reflexivity. Qed.

Example small_image_is_kept :
  crop_limit {| width := Some 1000; height := None; crop := "limit" |}
             {| format := "webp"; img_width := 640; img_height := 480 |} =
    {| format := "webp"; img_width := 640; img_height := 480 |}.
Proof. reflexivity. Qed.

Example well_formed_ids :
  objectid_of_hex id_7 = Some 7%N ∧
  objectid_of_hex "5f8d0d55b54764421b7156c3" = Some 29571597445393487292489881283%N ∧
  objectid_of_hex "abc" = None ∧
  objectid_of_hex "00000000000000000000000g" = None.
Proof. repeat split; vm_compute; reflexivity. Qed.

(** A remote delete that rejects with a value without a message: the
    answer is 500 with no [error] key, and the record is kept. *)
Example destroy_failure_without_message :
  (demo_app destroy_refused (DELETE_api_projects id_1) one_upload).1 =
    {| status := 500; body := JsonError None |} ∧
  projects (demo_app destroy_refused (DELETE_api_projects id_1) one_upload).2 !! 1%N =
    Some sunset_project.
Proof. split; vm_compute; reflexivity. Qed.

(** A second file part after the image: the image is uploaded, then
    removed again, and the handler does not run. *)
Example second_file_part :
  demo_app (quiet 1700000000000 1 "sunset")
    (POST_api_upload_more sunset_form second_image) empty_world =
    ({| status := 500; body := HtmlError (Some "Unexpected field") |},
     {| projects := ∅; assets := ∅;
        calls := [UploaderUpload "lented-gallery"
                    {| format := "jpg"; img_width := 3000; img_height := 2000 |};
                  UploaderDestroy "lented-gallery/sunset"] |}).
Proof. vm_compute; reflexivity. Qed.

Example other_requests :
  demo_app (quiet 1700000000000 1 "sunset") OPTIONS_preflight one_upload =
    ({| status := 204; body := NoContent |}, one_upload) ∧
  demo_app (quiet 1700000000000 1 "sunset") (Unrouted "PUT" "/api/projects/1") one_upload =
    ({| status := 404; body := HtmlError (Some "Cannot PUT /api/projects/1") |},
     one_upload).
Proof. split; reflexivity. Qed.

(** Two delete requests for the same record whose calls alternate: both
    lookups find the record, so both requests go through all three calls
    and both are answered 200, for one record removed. *)
Example interleaved_deletes :
  concurrently objectid_of_hex "demo"
    (quiet 1700000000001 3 "next") (DELETE_api_projects id_1)
    (quiet 1700000000001 4 "next") (DELETE_api_projects id_1)
    [true; false; true; false; true; false] one_upload =
    ({| status := 200; body := JsonMessage "Project deleted successfully" |},
     {| status := 200; body := JsonMessage "Project deleted successfully" |},
     {| projects := ∅; assets := ∅;
        calls := calls one_upload ++
                 [ProjectFindById id_1; ProjectFindById id_1;
                  UploaderDestroy "lented-gallery/sunset";
                  UploaderDestroy "lented-gallery/sunset";
                  ProjectFindByIdAndDelete id_1; ProjectFindByIdAndDelete id_1] |}).
Proof. vm_compute; reflexivity. Qed.

(** The same two requests one after the other: the second finds
    nothing. *)
Example deletes_in_turn :
  (concurrently objectid_of_hex "demo"
     (quiet 1700000000001 3 "next") (DELETE_api_projects id_1)
     (quiet 1700000000001 4 "next") (DELETE_api_projects id_1)
     [] one_upload).1 =
    ({| status := 200; body := JsonMessage "Project deleted successfully" |},
     {| status := 404; body := JsonError (Some "Project not found") |}).
Proof. vm_compute; reflexivity. Qed.

Example start_with_empty_uri :
  EnvServer.start empty_uri None None =
    [console_error [Text EnvServer.fatal_message]; process_exit 1].
Proof. reflexivity. Qed.

Example start_on_default_port :
  ServerJs.start "mongodb+srv://literal" placeholder_credentials no_environment None None =
    [mongoose_connect "mongodb+srv://literal";
     cloudinary_config placeholder_credentials;
     app_listen (PortNumber 3000);
     console_log [Text "🚀 Server running on port 3000"];
     console_log [Text "✅ MongoDB Connected"]].
Proof. vm_compute; reflexivity. Qed.

(** [app.listen] throwing, as the runtime does on a port out of range:
    the start-up ends there, without a diagnostic of its own. *)
Example start_with_refused_port :
  EnvServer.start port_70000 (Some "ERR_SOCKET_BAD_PORT") None =
    [mongoose_connect "mongodb://localhost/gallery";
     cloudinary_config
       {| config_cloud_name := None; config_api_key := None; config_api_secret := None |};
     app_listen (PortString "70000");
     uncaught_exception "ERR_SOCKET_BAD_PORT"] ∧
  halts (EnvServer.start port_70000 (Some "ERR_SOCKET_BAD_PORT") None) = true ∧
  exits (EnvServer.start port_70000 (Some "ERR_SOCKET_BAD_PORT") None) = false.
Proof. repeat split. Qed.

(** C8 as stated fails on [src/server.js]: started without [MONGO_URI],
    it does not halt and goes on to listen. *)
Lemma server_js_starts_without_MONGO_URI :
  MONGO_URI no_environment = None ∧
  halts (ServerJs.start "mongodb+srv://literal" placeholder_credentials
           no_environment None None) = false ∧
  serves (ServerJs.start "mongodb+srv://literal" placeholder_credentials
            no_environment None None) = true.
Proof. repeat split. Qed.

(** C2 as stated fails when two records share a [createdAt]: after two
    uploads within one millisecond the listing answers 200 with both
    records, and that list is not strictly descending. *)
Lemma listing_with_equal_timestamps :
  (demo_app (quiet 1700000000001 3 "next") GET_api_projects two_uploads).1 =
    {| status := 200; body := JsonProjects [tower_project; sunset_project] |} ∧
  createdAt tower_project = createdAt sunset_project ∧
  ¬ strictly_descending [tower_project; sunset_project].
Proof.
  split; [vm_compute; reflexivity|]. split; [reflexivity|].
  intros Hsorted. apply StronglySorted_inv in Hsorted as [_ Hfirst].
  apply Forall_inv in Hfirst. unfold older in Hfirst. cbn in Hfirst. lia.
Qed.

(** C5 as stated fails for an id the driver rejects: no record has the id
    [abc], yet the answer is 500 with the cast error, not 404. *)
Lemma delete_malformed_id_answers_500 :
  objectid_of_hex "abc" = None ∧
  (∀ p, p ∈ documents one_upload → objectid_of_hex "abc" ≠ Some (_id p)) ∧
  (demo_app (quiet 1700000000001 3 "next") (DELETE_api_projects "abc") one_upload).1 =
    {| status := 500; body := JsonError (Some (cast_error "abc")) |} ∧
  status (demo_app (quiet 1700000000001 3 "next") (DELETE_api_projects "abc") one_upload).1
    ≠ 404.
Proof.
  split; [reflexivity|]. split; [by intros p _|].
  split; [vm_compute; reflexivity|]. vm_compute. discriminate.
Qed.

(** C9 as stated fails for a tall image: a 2000 by 6000 upload is stored
    as 1000 by 3000, so its longest side is well over 1000 pixels. *)
Lemma tall_image_stays_tall :
  assets two_uploads !! "lented-gallery/tower" =
    Some {| format := "png"; img_width := 1000; img_height := 3000 |} ∧
  ¬ longest_side {| format := "png"; img_width := 1000; img_height := 3000 |} ≤ 1000.
Proof.
  split; [vm_compute; reflexivity|]. unfold longest_side. cbn. lia.
Qed.

(** The sunset record, uploaded with a public id, deleted with nothing failing. *)
Lemma delete_existing_record_example :
  objectid_of_hex id_1 = Some 1%N ∧
  projects one_upload !! 1%N = Some sunset_project ∧
  findById_fails (quiet 1700000000001 3 "next") = None ∧
  ∃ res w' trace,
    demo_app (quiet 1700000000001 3 "next") (DELETE_api_projects id_1) one_upload =
      (res, w') ∧
    calls w' = calls one_upload ++ ProjectFindById id_1 :: trace ∧
    (has_publicId sunset_project →
       ∃ pid, publicId sunset_project = Some pid ∧
         match destroy_fails (quiet 1700000000001 3 "next") with
         | Some m =>
             trace = [UploaderDestroy pid] ∧
             res = {| status := 500; body := JsonError m |} ∧
             projects w' = projects one_upload ∧
             assets w' = assets one_upload
         | None =>
             trace = [UploaderDestroy pid; ProjectFindByIdAndDelete id_1] ∧
             assets w' = delete pid (assets one_upload) ∧
             metadata_delete_outcome (quiet 1700000000001 3 "next") 1%N one_upload res w'
         end) ∧
    (¬ has_publicId sunset_project →
       trace = [ProjectFindByIdAndDelete id_1] ∧
       assets w' = assets one_upload ∧
       metadata_delete_outcome (quiet 1700000000001 3 "next") 1%N one_upload res w').
Proof.
  split; [reflexivity|]. split; [vm_compute; reflexivity|]. split; [reflexivity|].
  apply (delete_existing_record objectid_of_hex "demo"
           (quiet 1700000000001 3 "next") id_1 1%N sunset_project one_upload).
  - reflexivity.
  - vm_compute; reflexivity.
  - reflexivity.
Defined.

(** A well-formed id that matches nothing in a store of one record. *)
Lemma delete_absent_record_example :
  objectid_of_hex absent_id = Some 0%N ∧
  projects one_upload !! 0%N = None ∧
  findById_fails (quiet 1700000000001 3 "next") = None ∧
  ∃ w',
    demo_app (quiet 1700000000001 3 "next") (DELETE_api_projects absent_id) one_upload =
      ({| status := 404; body := JsonError (Some "Project not found") |}, w') ∧
    calls w' = calls one_upload ++ [ProjectFindById absent_id] ∧
    projects w' = projects one_upload ∧
    assets w' = assets one_upload.
Proof.
  split; [reflexivity|]. split; [vm_compute; reflexivity|]. split; [reflexivity|].
  apply (delete_absent_record objectid_of_hex "demo"
           (quiet 1700000000001 3 "next") absent_id 0%N one_upload).
  - reflexivity.
  - vm_compute; reflexivity.
  - reflexivity.
Defined.

(** A form with both text fields and no file. *)
Lemma upload_without_file_example :
  form_image no_file_form = None ∧
  demo_app (quiet 1700000000000 1 "sunset") (POST_api_upload no_file_form) one_upload =
    ({| status := 400; body := JsonError (Some "No image file uploaded") |}, one_upload).
Proof.
  split; [reflexivity|].
  apply (upload_without_file objectid_of_hex "demo"
           (quiet 1700000000000 1 "sunset") no_file_form one_upload).
  reflexivity.
Defined.


(** The sunset upload into an empty store, then the listing. *)
Lemma upload_then_list_example :
  (demo_app (quiet 1700000000000 1 "sunset") (POST_api_upload sunset_form) empty_world).1 =
    {| status := 201; body := JsonProject sunset_project |} ∧
  find_fails (quiet 1700000000001 3 "next") = None ∧
  ∃ l,
    (demo_app (quiet 1700000000001 3 "next") GET_api_projects
       (demo_app (quiet 1700000000000 1 "sunset") (POST_api_upload sunset_form)
          empty_world).2).1 =
      {| status := 200; body := JsonProjects l |} ∧
    sunset_project ∈ l ∧
    ∃ q, q ∈ l ∧ title q = title sunset_project ∧ category q = category sunset_project ∧
         imageUrl q = imageUrl sunset_project ∧ publicId q = publicId sunset_project.
Proof.
  split; [vm_compute; reflexivity|]. split; [reflexivity|].
  apply (upload_then_list objectid_of_hex "demo"
           (quiet 1700000000000 1 "sunset") (quiet 1700000000001 3 "next")
           sunset_form sunset_project empty_world).
  - vm_compute; reflexivity.
  - reflexivity.
Defined.

(** A 2000 by 6000 png sent through the middleware. *)
Lemma upload_pipeline_configuration_example :
  form_image tower_form =
    Some {| format := "png"; img_width := 2000; img_height := 6000 |} ∧
  0 < 2000 ∧ 0 < 6000 ∧
  match upload_single "demo" (quiet 1700000000000 2 "tower") tower_form one_upload with
  | (Resolved req, w1) =>
      "png" ∈ ["jpg"; "png"; "jpeg"; "webp"] ∧
      ∃ f stored,
        file req = Some f ∧
        filename f = "lented-gallery/" +:+ "tower" ∧
        assets w1 !! filename f = Some stored ∧
        format stored = "png" ∧
        img_width stored ≤ 1000 ∧
        0 < img_width stored ∧ 0 < img_height stored ∧
        img_width stored ≤ 2000 ∧
        img_height stored ≤ 6000 ∧
        (2000 ≤ 1000 → stored = {| format := "png"; img_width := 2000; img_height := 6000 |}) ∧
        Z.abs (img_height stored * 2000 - 6000 * img_width stored) ≤ 2000
  | (Rejected m, w1) =>
      assets w1 = assets one_upload ∧
      (upload_fails (quiet 1700000000000 2 "tower") = None →
       "png" ∉ ["jpg"; "png"; "jpeg"; "webp"])
  end.
Proof.
  split; [reflexivity|]. split; [lia|]. split; [lia|].
  apply (upload_pipeline_configuration "demo" (quiet 1700000000000 2 "tower")
           tower_form {| format := "png"; img_width := 2000; img_height := 6000 |}
           one_upload).
  - reflexivity.
  - cbn; lia.
  - cbn; lia.
Defined.

(** The id [abc] is refused by the cast; a 404 came from a well-formed id. *)
Lemma delete_malformed_id_example :
  (∃ w',
     demo_app (quiet 1700000000001 3 "next") (DELETE_api_projects "abc") one_upload =
       ({| status := 500; body := JsonError (Some (cast_error "abc")) |}, w') ∧
     calls w' = calls one_upload ++ [ProjectFindById "abc"] ∧
     projects w' = projects one_upload ∧
     assets w' = assets one_upload) ∧
  ∃ oid, objectid_of_hex absent_id = Some oid ∧ projects one_upload !! oid = None.
Proof.
  split.
  - apply (delete_malformed_id objectid_of_hex "demo"
             (quiet 1700000000001 3 "next") "abc" one_upload).
    reflexivity.
  - apply (delete_malformed_id objectid_of_hex "demo"
             (quiet 1700000000001 3 "next") absent_id one_upload).
    vm_compute; reflexivity.
Defined.

(** * Further examples *)

Lemma two_uploads_reachable :
  reachable objectid_of_hex "demo" empty_world two_uploads.
Proof.
  apply (reachable_request objectid_of_hex "demo" empty_world
           (quiet 1700000000000 2 "tower") (POST_api_upload tower_form) one_upload).
  apply (reachable_request objectid_of_hex "demo" empty_world
           (quiet 1700000000000 1 "sunset") (POST_api_upload sunset_form) empty_world).
  apply reachable_start.
Qed.

(** The listing after the two uploads. *)
Lemma listing_ids_unique_example :
  reachable objectid_of_hex "demo" empty_world two_uploads ∧
  find_fails (quiet 1700000000001 3 "next") = None ∧
  ∃ l,
    (demo_app (quiet 1700000000001 3 "next") GET_api_projects two_uploads).1 =
      {| status := 200; body := JsonProjects l |} ∧
    NoDup (_id <$> l).
Proof.
  split; [exact two_uploads_reachable|]. split; [reflexivity|].
  apply (listing_ids_unique objectid_of_hex "demo"
           (quiet 1700000000001 3 "next") two_uploads).
  - exact two_uploads_reachable.
  - reflexivity.
Defined.

(** The sunset record deleted from the two uploads, then the listing. *)
Lemma delete_then_list_example :
  keyed two_uploads ∧
  status (demo_app (quiet 1700000000001 3 "next") (DELETE_api_projects id_1)
            two_uploads).1 = 200 ∧
  find_fails (quiet 1700000000002 3 "next") = None ∧
  ∃ oid l,
    objectid_of_hex id_1 = Some oid ∧
    (demo_app (quiet 1700000000002 3 "next") GET_api_projects
       (demo_app (quiet 1700000000001 3 "next") (DELETE_api_projects id_1)
          two_uploads).2).1 =
      {| status := 200; body := JsonProjects l |} ∧
    (∀ q, q ∈ l → _id q ≠ oid) ∧
    (∀ k q, k ≠ oid → projects two_uploads !! k = Some q → q ∈ l).
Proof.
  assert (keyed two_uploads) as Hkeyed
    by exact (reachable_keyed objectid_of_hex "demo" two_uploads two_uploads_reachable).
  split; [exact Hkeyed|]. split; [vm_compute; reflexivity|]. split; [reflexivity|].
  apply (delete_then_list objectid_of_hex "demo"
           (quiet 1700000000001 3 "next") (quiet 1700000000002 3 "next")
           id_1 two_uploads Hkeyed).
  - vm_compute; reflexivity.
  - reflexivity.
Defined.

(** The sunset record deleted twice. *)
Lemma delete_twice_example :
  status (demo_app (quiet 1700000000001 3 "next") (DELETE_api_projects id_1)
            one_upload).1 = 200 ∧
  findById_fails (quiet 1700000000002 3 "next") = None ∧
  demo_app (quiet 1700000000002 3 "next") (DELETE_api_projects id_1)
    (demo_app (quiet 1700000000001 3 "next") (DELETE_api_projects id_1) one_upload).2 =
    ({| status := 404; body := JsonError (Some "Project not found") |},
     record_call (ProjectFindById id_1)
       (demo_app (quiet 1700000000001 3 "next") (DELETE_api_projects id_1) one_upload).2).
Proof.
  split; [vm_compute; reflexivity|]. split; [reflexivity|].
  apply (delete_twice objectid_of_hex "demo"
           (quiet 1700000000001 3 "next") (quiet 1700000000002 3 "next")
           id_1 one_upload).
  - vm_compute; reflexivity.
  - reflexivity.
Defined.




